(** * Verification of acodeh: prompt accumulation (src/prompt.rs) and
      streaming response deframing (src/llm.rs). *)

From Stdlib Require Import String Ascii ZArith List Bool Lia.
Import ListNotations.

Set Warnings "-register-all,-abstract-large-number".
Open Scope Z_scope.

(** ** JSON decoding of a response record.

    [serde_json::from_slice::<GenerateResponse>] is modelled in two phases
    which accept and reject exactly the same byte strings: parse one JSON
    value surrounded by optional whitespace, then decode it into the
    [GenerateResponse] structure the way the derived [Deserialize] does
    ([#[serde(default)]], unknown fields ignored, duplicate known fields
    rejected, positional array form accepted).  Bytes are [ascii]
    characters.  Not modelled: UTF-8 validation of raw non-ASCII bytes,
    the nesting depth limit of serde_json, and its laxer reading of [\u]
    escapes inside values it ignores; none of them occurs in the inputs
    the theorems below decode. *)
Module Json.

Inductive json : Type :=
| JNull
| JBool (b : bool)
| JUInt (n : Z)        (* non-negative integer that fits in u64 *)
| JNegInt (z : Z)      (* negative integer that fits in i64 *)
| JFloat               (* any other number: fraction, exponent, -0, overflow *)
| JStr (s : string)
| JArr (l : list json)
| JObj (l : list (string * json)).

Definition is_ws (c : ascii) : bool :=
  match c with
  | " "%char | "009"%char | "010"%char | "013"%char => true
  | _ => false
  end.

Fixpoint skip_ws (s : string) : string :=
  match s with
  | String c r => if is_ws c then skip_ws r else s
  | EmptyString => s
  end.

Definition is_digit (c : ascii) : bool :=
  let n := nat_of_ascii c in (48 <=? n)%nat && (n <=? 57)%nat.

Definition digit_val (c : ascii) : Z := Z.of_nat (nat_of_ascii c) - 48.

Definition hex_val (c : ascii) : option Z :=
  let n := Z.of_nat (nat_of_ascii c) in
  if (48 <=? n) && (n <=? 57) then Some (n - 48)
  else if (65 <=? n) && (n <=? 70) then Some (n - 55)
  else if (97 <=? n) && (n <=? 102) then Some (n - 87)
  else None.

Definition hex4 (a b c d : ascii) : option Z :=
  match hex_val a, hex_val b, hex_val c, hex_val d with
  | Some a, Some b, Some c, Some d => Some (((a * 16 + b) * 16 + c) * 16 + d)
  | _, _, _, _ => None
  end.

Definition byte_of (z : Z) : ascii := ascii_of_nat (Z.to_nat z).

(** UTF-8 encoding of a code point, as the bytes pushed by serde_json. *)
Definition utf8 (cp : Z) : string :=
  if cp <? 128 then String (byte_of cp) EmptyString
  else if cp <? 2048 then
    String (byte_of (192 + cp / 64))
      (String (byte_of (128 + cp mod 64)) EmptyString)
  else if cp <? 65536 then
    String (byte_of (224 + cp / 4096))
      (String (byte_of (128 + (cp / 64) mod 64))
        (String (byte_of (128 + cp mod 64)) EmptyString))
  else
    String (byte_of (240 + cp / 262144))
      (String (byte_of (128 + (cp / 4096) mod 64))
        (String (byte_of (128 + (cp / 64) mod 64))
          (String (byte_of (128 + cp mod 64)) EmptyString))).

Definition is_high_surrogate (n : Z) : bool := (55296 <=? n) && (n <=? 56319).
Definition is_low_surrogate (n : Z) : bool := (56320 <=? n) && (n <=? 57343).

Definition simple_escape (c : ascii) : option ascii :=
  match c with
  | "034"%char => Some "034"%char
  | "\"%char => Some "\"%char
  | "/"%char => Some "/"%char
  | "b"%char => Some "008"%char
  | "f"%char => Some "012"%char
  | "n"%char => Some "010"%char
  | "r"%char => Some "013"%char
  | "t"%char => Some "009"%char
  | _ => None
  end.

(** Body of a string literal, after the opening quote: the decoded bytes
    and the input after the closing quote.  Control characters are
    rejected, lone surrogates in [\u] escapes are rejected. *)
Fixpoint parse_str (s : string) : option (string * string) :=
  match s with
  | EmptyString => None
  | String c r =>
    if Ascii.eqb c "034"%char then Some (EmptyString, r)
    else if Ascii.eqb c "\"%char then
      match r with
      | String "u"%char (String a (String b (String c1 (String d r1)))) =>
        match hex4 a b c1 d with
        | None => None
        | Some n =>
          if is_high_surrogate n then
            match r1 with
            | String "\"%char (String "u"%char
                (String a2 (String b2 (String c2 (String d2 r2))))) =>
              match hex4 a2 b2 c2 d2 with
              | Some m =>
                if is_low_surrogate m then
                  match parse_str r2 with
                  | Some (v, rest) =>
                    Some (utf8 (65536 + (n - 55296) * 1024 + (m - 56320)) ++ v,
                          rest)%string
                  | None => None
                  end
                else None
              | None => None
              end
            | _ => None
            end
          else if is_low_surrogate n then None
          else
            match parse_str r1 with
            | Some (v, rest) => Some (utf8 n ++ v, rest)%string
            | None => None
            end
        end
      | String e r1 =>
        match simple_escape e with
        | Some ch =>
          match parse_str r1 with
          | Some (v, rest) => Some (String ch v, rest)
          | None => None
          end
        | None => None
        end
      | EmptyString => None
      end
    else if (nat_of_ascii c <? 32)%nat then None
    else
      match parse_str r with
      | Some (v, rest) => Some (String c v, rest)
      | None => None
      end
  end.

(** Digits: their value (accumulated onto [acc]) and the rest. *)
Fixpoint parse_digits (acc : Z) (s : string) : Z * string :=
  match s with
  | String c r =>
    if is_digit c then parse_digits (acc * 10 + digit_val c) r else (acc, s)
  | EmptyString => (acc, s)
  end.

Definition starts_digit (s : string) : bool :=
  match s with String c _ => is_digit c | EmptyString => false end.

(** Optional fraction and exponent; [Some (had_any, rest)]. *)
Definition parse_frac_exp (s : string) : option (bool * string) :=
  let after_frac :=
    match s with
    | String "."%char r =>
      if starts_digit r then Some (true, snd (parse_digits 0 r)) else None
    | _ => Some (false, s)
    end in
  match after_frac with
  | None => None
  | Some (f, s1) =>
    match s1 with
    | String e r =>
      if Ascii.eqb e "e"%char || Ascii.eqb e "E"%char then
        let r' := match r with
                  | String "+"%char r2 => r2
                  | String "-"%char r2 => r2
                  | _ => r
                  end in
        if starts_digit r' then Some (true, snd (parse_digits 0 r')) else None
      else Some (f, s1)
    | EmptyString => Some (f, s1)
    end
  end.

(** A number: optional minus, then 0 or a non-zero digit and more digits,
    then an optional fraction and an optional exponent. *)
Definition parse_number (s : string) : option (json * string) :=
  let (neg, s0) := match s with
                   | String "-"%char r => (true, r)
                   | _ => (false, s)
                   end in
  match s0 with
  | String "0"%char r =>
    if starts_digit r then None
    else
      match parse_frac_exp r with
      | None => None
      | Some (true, rest) => Some (JFloat, rest)
      | Some (false, rest) => Some (if neg then JFloat else JUInt 0, rest)
      end
  | String c _ =>
    if is_digit c then
      let (v, r) := parse_digits 0 s0 in
      match parse_frac_exp r with
      | None => None
      | Some (true, rest) => Some (JFloat, rest)
      | Some (false, rest) =>
        if neg then
          Some (if v <=? 2 ^ 63 then JNegInt (- v) else JFloat, rest)
        else Some (if v <? 2 ^ 64 then JUInt v else JFloat, rest)
      end
    else None
  | EmptyString => None
  end.

Definition literal (w : string) (v : json) (s : string) : option (json * string) :=
  if String.prefix w s
  then Some (v, substring (String.length w) (String.length s - String.length w) s)
  else None.

(** One JSON value after leading whitespace; [fuel] bounds the call depth
    and is chosen large enough by [parse_one]. *)
Fixpoint parse_value (fuel : nat) (s : string) : option (json * string) :=
  match fuel with
  | O => None
  | S f =>
    match skip_ws s with
    | String "n"%char _ as t => literal "null" JNull t
    | String "t"%char _ as t => literal "true" (JBool true) t
    | String "f"%char _ as t => literal "false" (JBool false) t
    | String "034"%char r =>
      match parse_str r with
      | Some (v, rest) => Some (JStr v, rest)
      | None => None
      end
    | String "["%char r =>
      match skip_ws r with
      | String "]"%char r1 => Some (JArr [], r1)
      | _ =>
        match parse_elems f r with
        | Some (l, rest) => Some (JArr l, rest)
        | None => None
        end
      end
    | String "{"%char r =>
      match skip_ws r with
      | String "}"%char r1 => Some (JObj [], r1)
      | _ =>
        match parse_members f r with
        | Some (l, rest) => Some (JObj l, rest)
        | None => None
        end
      end
    | t => parse_number t
    end
  end
(** Array elements: value (, value)* ]. *)
with parse_elems (fuel : nat) (s : string) : option (list json * string) :=
  match fuel with
  | O => None
  | S f =>
    match parse_value f s with
    | None => None
    | Some (v, r) =>
      match skip_ws r with
      | String ","%char r1 =>
        match parse_elems f r1 with
        | Some (l, rest) => Some (v :: l, rest)
        | None => None
        end
      | String "]"%char r1 => Some ([v], r1)
      | _ => None
      end
    end
  end
(** Object members: "key" : value (, "key" : value)* }. *)
with parse_members (fuel : nat) (s : string)
  : option (list (string * json) * string) :=
  match fuel with
  | O => None
  | S f =>
    match skip_ws s with
    | String "034"%char r =>
      match parse_str r with
      | None => None
      | Some (k, r1) =>
        match skip_ws r1 with
        | String ":"%char r2 =>
          match parse_value f r2 with
          | None => None
          | Some (v, r3) =>
            match skip_ws r3 with
            | String ","%char r4 =>
              match parse_members f r4 with
              | Some (l, rest) => Some ((k, v) :: l, rest)
              | None => None
              end
            | String "}"%char r4 => Some ([(k, v)], r4)
            | _ => None
            end
          end
        | _ => None
        end
      end
    | _ => None
    end
  end.

(** A whole input: one value, then only whitespace ([Deserializer::end]). *)
Definition parse_one (s : string) : option json :=
  match parse_value (2 * String.length s + 2) s with
  | Some (v, rest) =>
    match skip_ws rest with
    | EmptyString => Some v
    | _ => None
    end
  | None => None
  end.

End Json.

Module Llm.
Import Json.

Local Notation "'let?' x ':=' e 'in' k" :=
  (match e with Some x => k | None => None end)
  (at level 200, x name, e at level 100, k at level 200).

(** [GenerateResponse] (src/llm.rs), fields in declaration order. *)
Record GenerateResponse : Type := {
  created_at : string;
  done_reason : string;
  done : bool;
  eval_count : Z;
  eval_duration : Z;
  load_duration : Z;
  model : string;
  prompt_eval_count : Z;
  prompt_eval_duration : Z;
  response : string;
  total_duration : Z;
  error : option string
}.

(** [#[derive(Default)]]. *)
Definition default_response : GenerateResponse := {|
  created_at := EmptyString; done_reason := EmptyString; done := false; eval_count := 0;
  eval_duration := 0; load_duration := 0; model := EmptyString;
  prompt_eval_count := 0; prompt_eval_duration := 0; response := EmptyString;
  total_duration := 0; error := None |}.

Definition de_string (v : json) : option string :=
  match v with JStr s => Some s | _ => None end.
Definition de_bool (v : json) : option bool :=
  match v with JBool b => Some b | _ => None end.
Definition de_u64 (v : json) : option Z :=
  match v with JUInt n => Some n | _ => None end.
Definition de_opt_string (v : json) : option (option string) :=
  match v with JNull => Some None | JStr s => Some (Some s) | _ => None end.

(** Value of a known key in an object: [None] when the key is repeated
    (serde's [duplicate_field]), [Some None] when absent. *)
Definition member (k : string) (l : list (string * json)) : option (option json) :=
  match filter (fun kv => String.eqb (fst kv) k) l with
  | [] => Some None
  | [(_, v)] => Some (Some v)
  | _ => None
  end.

Definition field {A} (k : string) (l : list (string * json))
    (de : json -> option A) (dflt : A) : option A :=
  let? m := member k l in
  match m with None => Some dflt | Some v => de v end.

(** Positional element [i] of the sequence form, default when missing. *)
Definition elem {A} (i : nat) (l : list json) (de : json -> option A) (dflt : A)
  : option A :=
  match nth_error l i with None => Some dflt | Some v => de v end.

Definition d := default_response.

Definition of_map (l : list (string * json)) : option GenerateResponse :=
  let? a := field "created_at" l de_string d.(created_at) in
  let? b := field "done_reason" l de_string d.(done_reason) in
  let? c := field "done" l de_bool d.(done) in
  let? e1 := field "eval_count" l de_u64 d.(eval_count) in
  let? e2 := field "eval_duration" l de_u64 d.(eval_duration) in
  let? e3 := field "load_duration" l de_u64 d.(load_duration) in
  let? m := field "model" l de_string d.(model) in
  let? p1 := field "prompt_eval_count" l de_u64 d.(prompt_eval_count) in
  let? p2 := field "prompt_eval_duration" l de_u64 d.(prompt_eval_duration) in
  let? r := field "response" l de_string d.(response) in
  let? t := field "total_duration" l de_u64 d.(total_duration) in
  let? er := field "error" l de_opt_string d.(error) in
  Some {| created_at := a; done_reason := b; done := c; eval_count := e1;
          eval_duration := e2; load_duration := e3; model := m;
          prompt_eval_count := p1; prompt_eval_duration := p2; response := r;
          total_duration := t; error := er |}.

Definition of_seq (l : list json) : option GenerateResponse :=
  if (12 <? List.length l)%nat then None else
  let? a := elem 0 l de_string d.(created_at) in
  let? b := elem 1 l de_string d.(done_reason) in
  let? c := elem 2 l de_bool d.(done) in
  let? e1 := elem 3 l de_u64 d.(eval_count) in
  let? e2 := elem 4 l de_u64 d.(eval_duration) in
  let? e3 := elem 5 l de_u64 d.(load_duration) in
  let? m := elem 6 l de_string d.(model) in
  let? p1 := elem 7 l de_u64 d.(prompt_eval_count) in
  let? p2 := elem 8 l de_u64 d.(prompt_eval_duration) in
  let? r := elem 9 l de_string d.(response) in
  let? t := elem 10 l de_u64 d.(total_duration) in
  let? er := elem 11 l de_opt_string d.(error) in
  Some {| created_at := a; done_reason := b; done := c; eval_count := e1;
          eval_duration := e2; load_duration := e3; model := m;
          prompt_eval_count := p1; prompt_eval_duration := p2; response := r;
          total_duration := t; error := er |}.

(** [serde_json::from_slice::<GenerateResponse>]; [None] is the [Err] case. *)
Definition from_slice (s : string) : option GenerateResponse :=
  let? v := parse_one s in
  match v with
  | JObj l => of_map l
  | JArr l => of_seq l
  | _ => None
  end.

(** One item of [response.bytes_stream()]. *)
Inductive chunk : Type :=
| ChunkOk (bytes : string)
| ChunkErr.                      (* a [reqwest::Error] from the connection *)

(** What [send().await] yields. *)
Inductive http_response : Type :=
| SendError                      (* [send().await?] fails *)
| StatusError (body : string)    (* non-2xx status, raw body *)
| Success (body : list chunk).   (* 2xx status, the body as a chunk stream *)

Inductive stream_error : Type :=
| TransportError
| ApiStatusError (payload : json)
| FrameDecodeError
| LLMError (msg : string).

(** The callback [on_chunk: FnMut(GenerateResponse) -> Fut<bool>]: its
    answer may depend on the frames it was given before. *)
Definition callback := list GenerateResponse -> GenerateResponse -> bool.

(** State of the [while let] loop when it is left. *)
Inductive loop_exit : Type :=
| LoopFail (e : stream_error) (delivered : list GenerateResponse)
| LoopEnd (delivered : list GenerateResponse) (no_parsed_chunks : string).

(** The [while let Some(chunk) = stream.next().await] loop (lines 83-97);
    [delivered] are the frames passed to [on_chunk] so far, in order. *)
Fixpoint stream_loop (on_chunk : callback) (chunks : list chunk)
    (delivered : list GenerateResponse) (no_parsed_chunks : string) : loop_exit :=
  match chunks with
  | [] => LoopEnd delivered no_parsed_chunks
  | ChunkErr :: _ => LoopFail TransportError delivered
  | ChunkOk c :: rest =>
    match from_slice c with
    | Some fr =>
      match fr.(error) with
      | Some err => LoopFail (LLMError err) delivered
      | None =>
        let stop := on_chunk delivered fr in
        if stop then LoopEnd (delivered ++ [fr]) no_parsed_chunks
        else stream_loop on_chunk rest (delivered ++ [fr]) no_parsed_chunks
      end
    | None => stream_loop on_chunk rest delivered (no_parsed_chunks ++ c)%string
    end
  end.

(** [LLMClient::generate_stream]: the result and the frames given to the
    callback, in order. *)
Definition generate_stream (resp : http_response) (on_chunk : callback)
  : (unit + stream_error) * list GenerateResponse :=
  match resp with
  | SendError => (inr TransportError, [])
  | StatusError body =>
    match parse_one body with
    | Some v => (inr (ApiStatusError v), [])
    | None => (inr TransportError, [])     (* [response.json().await?] *)
    end
  | Success chunks =>
    match stream_loop on_chunk chunks [] EmptyString with
    | LoopFail e delivered => (inr e, delivered)
    | LoopEnd delivered no_parsed_chunks =>
      match no_parsed_chunks with
      | EmptyString => (inl tt, delivered)
      | _ =>
        match from_slice no_parsed_chunks with
        | None => (inr FrameDecodeError, delivered)
        | Some fr =>
          let _ := on_chunk delivered fr in
          (inl tt, delivered ++ [fr])
        end
      end
    end
  end.

(** Test inputs are written with an apostrophe for the JSON quote character. *)
Fixpoint dq (s : string) : string :=
  match s with
  | EmptyString => EmptyString
  | String c r =>
    String (if Ascii.eqb c "'"%char then "034"%char else c) (dq r)
  end.

(** The whole body, as [response.bytes()] gathers it: [None] when a chunk
    fails on the connection. *)
Fixpoint collect_body (chunks : list chunk) : option string :=
  match chunks with
  | [] => Some EmptyString
  | ChunkErr :: _ => None
  | ChunkOk c :: rest =>
    match collect_body rest with
    | Some r => Some (c ++ r)%string
    | None => None
    end
  end.

(** [LLMClient::generate_once]: [response.json()] reads the whole body and
    decodes it as one record; its failures are [reqwest::Error]s, like the
    ones of [send], and are modelled as [TransportError]. *)
Definition generate_once (resp : http_response) : GenerateResponse + stream_error :=
  match resp with
  | SendError => inr TransportError
  | StatusError body =>
    match parse_one body with
    | Some v => inr (ApiStatusError v)
    | None => inr TransportError
    end
  | Success chunks =>
    match collect_body chunks with
    | None => inr TransportError
    | Some bytes =>
      match from_slice bytes with
      | Some fr => inl fr
      | None => inr TransportError
      end
    end
  end.

Definition is_empty_chunk (c : chunk) : bool :=
  match c with ChunkOk EmptyString => true | _ => false end.

(** A chunk that is one whole record without an in-band error. *)
Definition whole_record (c : string) (fr : GenerateResponse) : Prop :=
  from_slice c = Some fr /\ fr.(error) = None.

Fixpoint all_ws (s : string) : bool :=
  match s with
  | EmptyString => true
  | String c r => is_ws c && all_ws r
  end.

(** The callback answers continue on every frame of [pre], given the
    frames [d] delivered before. *)
Definition continues (on_chunk : callback) (d pre : list GenerateResponse) : Prop :=
  forall p1 f p2, pre = p1 ++ f :: p2 -> on_chunk (d ++ p1) f = false.

End Llm.

Module Prompt.

Definition nl : string := String "010" EmptyString.

Definition u64_modulus : Z := 2 ^ 64.

(** [a + b] on [u64], wrapping as in a release build. *)
Definition u64_add (a b : Z) : Z := (a + b) mod u64_modulus.

(** [DEFAULT_MAX_CONTEXT = 16 * 1_024]. *)
Definition DEFAULT_MAX_CONTEXT : Z := 16 * 1024.

(** [str::len] as [u64]. *)
Definition len (s : string) : Z := Z.of_nat (String.length s).

(** [[a, b, ...].join(sep)]. *)
Fixpoint join (sep : string) (l : list string) : string :=
  match l with
  | [] => EmptyString
  | [x] => x
  | x :: r => (x ++ sep ++ join sep r)%string
  end.

Fixpoint split_on (c : ascii) (s : string) : list string :=
  match s with
  | EmptyString => [EmptyString]
  | String x r =>
    if Ascii.eqb x c then EmptyString :: split_on c r
    else match split_on c r with
         | [] => [String x EmptyString]
         | w :: ws => String x w :: ws
         end
  end.

(** [Path::file_name]: the last component, when it is a normal one
    (empty and [.] components are dropped by [Path::components]). *)
Definition file_name (path : string) : option string :=
  let comps := filter (fun w => negb (String.eqb w EmptyString || String.eqb w "."))
                      (split_on "/" path) in
  match rev comps with
  | [] => None
  | last :: _ => if String.eqb last ".." then None else Some last
  end.

(** [Path::extension]: the text after the last dot of the file name,
    none when there is no dot or the only dot starts the name. *)
Definition extension (path : string) : option string :=
  match file_name path with
  | None => None
  | Some f =>
    match rev (split_on "." f) with
    | [] | [_] => None
    | after :: before_rev =>
      let before := join "." (rev before_rev) in
      if String.eqb before EmptyString then None else Some after
    end
  end.

(** The file system seen by [add_file]: [tokio::fs::read_to_string] and
    [pdf_extract::extract_text], [None] for their [Err]. *)
Record fs_env : Type := {
  read_to_string : string -> option string;
  extract_text : string -> option string
}.

Record PromptBuilder : Type := {
  prompt : string;
  files : list (string * string);
  documents : list string;
  total_content_len : Z;
  max_context : option Z
}.

Definition new (p : string) : PromptBuilder :=
  {| prompt := p; files := []; documents := []; total_content_len := 0;
     max_context := None |}.

(** [PromptBuilder::max_context] (the setter). *)
Definition set_max_context (value : option Z) (b : PromptBuilder) : PromptBuilder :=
  {| prompt := b.(prompt); files := b.(files); documents := b.(documents);
     total_content_len := b.(total_content_len); max_context := value |}.

Inductive add_error : Type :=
| ContentExtractionError
| BudgetExceeded (max_context : Z) (content_len : Z).

(** [&mut self] methods return their result together with the builder
    as it is after the call. *)
Definition add_result := ((Z + add_error) * PromptBuilder)%type.

(** [self.max_context.or(Some(DEFAULT_MAX_CONTEXT))]. *)
Definition effective_ceiling (b : PromptBuilder) : Z :=
  match b.(max_context) with Some m => m | None => DEFAULT_MAX_CONTEXT end.

(** [format!("path: {}\n```{}\n{}\n```", path, extension, content)]. *)
Definition render (path ext content : string) : string :=
  ("path: " ++ path ++ nl ++ "```" ++ ext ++ nl ++ content ++ nl ++ "```")%string.

Definition set_total_content_len (v : Z) (b : PromptBuilder) : PromptBuilder :=
  {| prompt := b.(prompt); files := b.(files); documents := b.(documents);
     total_content_len := v; max_context := b.(max_context) |}.

(** Admission of a rendered fragment, shared by [add_file] (lines 185-197)
    and [add_document] (lines 201-213): the budget check, then
    [self.total_content_len += content_len] and the [push]. *)
Definition admit_fragment (b : PromptBuilder) (content : string)
    (push : PromptBuilder -> PromptBuilder) : add_result :=
  let content_len := len content in
  let ceiling := effective_ceiling b in
  if ceiling <? u64_add b.(total_content_len) content_len / 4
  then (inr (BudgetExceeded ceiling content_len), b)
  else
    let b := set_total_content_len (u64_add b.(total_content_len) content_len) b in
    (inl content_len, push b).

Definition push_file (path content : string) (b : PromptBuilder) : PromptBuilder :=
  {| prompt := b.(prompt); files := b.(files) ++ [(path, content)];
     documents := b.(documents); total_content_len := b.(total_content_len);
     max_context := b.(max_context) |}.

Definition push_document (content : string) (b : PromptBuilder) : PromptBuilder :=
  {| prompt := b.(prompt); files := b.(files);
     documents := b.(documents) ++ [content];
     total_content_len := b.(total_content_len); max_context := b.(max_context) |}.

(** [extension.unwrap_or_default()]. *)
Definition path_extension (path : string) : string :=
  match extension path with Some e => e | None => EmptyString end.

(** [if extension == "pdf" { pdf_extract::extract_text } else
    { tokio::fs::read_to_string }]. *)
Definition read_content (fs : fs_env) (path ext : string) : option string :=
  if String.eqb ext "pdf" then fs.(extract_text) path else fs.(read_to_string) path.

(** [PromptBuilder::add_file]. *)
Definition add_file (fs : fs_env) (path : string) (b : PromptBuilder) : add_result :=
  let ext := path_extension path in
  match read_content fs path ext with
  | None => (inr ContentExtractionError, b)
  | Some content =>
    let content := render path ext content in
    admit_fragment b content (push_file path content)
  end.

(** [PromptBuilder::add_document]. *)
Definition add_document (content : string) (b : PromptBuilder) : add_result :=
  admit_fragment b content (push_document content).

(** Modelled from the spec: the file [prompt_context_templete.in] that
    [build] includes is not among the sources.  It is "a fixed template"
    with one [{}] placeholder: after [format!] it is a fixed text before
    the argument and a fixed text after it. *)
Record template : Type := {
  tpl_before : string;
  tpl_after : string
}.

Definition fill (t : template) (arg : string) : string :=
  (t.(tpl_before) ++ arg ++ t.(tpl_after))%string.

Record PromptStats : Type := {
  file_count : nat;
  document_count : nat;
  stats_total_content_len : Z;
  context_len_estimated : Z;
  prompt_context_len_estimated : Z;
  stats_max_context : Z
}.

(** [while aligned_context_len < estimated { aligned_context_len *= 2 }];
    the loop is reached only when [estimated <= DEFAULT_MAX_CONTEXT], where
    it stops within three rounds, far inside the fuel. *)
Fixpoint align_loop (fuel : nat) (aligned_context_len estimated : Z) : Z :=
  match fuel with
  | O => aligned_context_len
  | S f =>
    if aligned_context_len <? estimated
    then align_loop f ((aligned_context_len * 2) mod u64_modulus) estimated
    else aligned_context_len
  end.

(** The [match self.max_context] of [build] (lines 261-276). *)
Definition resolve_max_context (mc : option Z) (estimated : Z) : Z :=
  match mc with
  | Some m => m
  | None =>
    if DEFAULT_MAX_CONTEXT <? estimated then DEFAULT_MAX_CONTEXT
    else
      let aligned_context_len := align_loop 64 (2 * 1024) estimated in
      if DEFAULT_MAX_CONTEXT <? aligned_context_len then DEFAULT_MAX_CONTEXT
      else aligned_context_len
  end.

(** The [<files>] envelope: a left fold [format!("{acc}\n{content}")]
    from the empty string. *)
Definition files_envelope (files : list (string * string)) : string :=
  ("<files>" ++ nl
   ++ fold_left (fun acc pc => acc ++ nl ++ snd pc) files EmptyString
   ++ nl ++ "</files>")%string.

Definition documents_envelope (documents : list string) : string :=
  ("<documents>" ++ nl ++ join nl documents ++ nl ++ "</documents>")%string.

Definition build_context (b : PromptBuilder) : list string :=
  (match b.(files) with [] => [] | _ => [files_envelope b.(files)] end)
  ++ (match b.(documents) with [] => [] | _ => [documents_envelope b.(documents)] end).

(** [PromptBuilder::build] (the [Ok] it always returns). *)
Definition build (t : template) (b : PromptBuilder) : string * PromptStats :=
  let context := build_context b in
  let p := match context with
           | [] => b.(prompt)
           | _ => join nl [b.(prompt); fill t (join nl context)]
           end in
  let prompt_context_len_estimated := len p / 4 in
  (p, {| file_count := List.length b.(files);
         document_count := List.length b.(documents);
         stats_total_content_len := b.(total_content_len);
         context_len_estimated := b.(total_content_len) / 4;
         prompt_context_len_estimated := prompt_context_len_estimated;
         stats_max_context := resolve_max_context b.(max_context)
                                prompt_context_len_estimated |}).

(** A sequence of calls on one builder. *)
Inductive op : Type :=
| AddFile (path : string)
| AddDocument (content : string).

Definition step (fs : fs_env) (o : op) (b : PromptBuilder) : add_result :=
  match o with
  | AddFile path => add_file fs path b
  | AddDocument content => add_document content b
  end.

Fixpoint run (fs : fs_env) (ops : list op) (b : PromptBuilder)
  : list (Z + add_error) * PromptBuilder :=
  match ops with
  | [] => ([], b)
  | o :: rest =>
    let (r, b1) := step fs o b in
    let (rs, b2) := run fs rest b1 in
    (r :: rs, b2)
  end.

(** The fragment a call would admit_fragment: the rendered file, or the text. *)
Definition fragment (fs : fs_env) (o : op) : option string :=
  match o with
  | AddFile path =>
    let ext := path_extension path in
    match read_content fs path ext with
    | Some content => Some (render path ext content)
    | None => None
    end
  | AddDocument content => Some content
  end.

(** The append a call performs once its fragment is admitted. *)
Definition push_op (o : op) (frag : string) : PromptBuilder -> PromptBuilder :=
  match o with
  | AddFile path => push_file path frag
  | AddDocument _ => push_document frag
  end.

Definition sum_lens (b : PromptBuilder) : Z :=
  fold_right (fun pc acc => len (snd pc) + acc) 0 b.(files)
  + fold_right (fun c acc => len c + acc) 0 b.(documents).

(** The admission check as the spec states it, for a call [r] on [b]
    whose fragment is [frag] and whose append is [push]. *)
Definition admission_spec (b : PromptBuilder) (frag : string)
    (push : PromptBuilder -> PromptBuilder) (r : add_result) : Prop :=
  (effective_ceiling b < (b.(total_content_len) + len frag) / 4 ->
     r = (inr (BudgetExceeded (effective_ceiling b) (len frag)), b))
  /\ ((b.(total_content_len) + len frag) / 4 <= effective_ceiling b ->
     r = (inl (len frag),
          push (set_total_content_len (b.(total_content_len) + len frag) b))).

(** Files and documents admitted by a run, in call order. *)
Fixpoint admitted_files (fs : fs_env) (ops : list op) (rs : list (Z + add_error))
  : list (string * string) :=
  match ops, rs with
  | AddFile path :: ops', inl _ :: rs' =>
    match fragment fs (AddFile path) with
    | Some f => (path, f) :: admitted_files fs ops' rs'
    | None => admitted_files fs ops' rs'
    end
  | _ :: ops', _ :: rs' => admitted_files fs ops' rs'
  | _, _ => []
  end.

Fixpoint admitted_documents (ops : list op) (rs : list (Z + add_error)) : list string :=
  match ops, rs with
  | AddDocument c :: ops', inl _ :: rs' => c :: admitted_documents ops' rs'
  | _ :: ops', _ :: rs' => admitted_documents ops' rs'
  | _, _ => []
  end.

(** The prompt [build] is described to assemble, in the spec's words:
    the base prompt, then the [<files>] envelope holding the admitted
    files in order, each after a newline, then the [<documents>] envelope
    holding the documents joined by newlines, each envelope only when it
    is non-empty, inside the template. *)
Definition files_block (F : list (string * string)) : string :=
  ("<files>" ++ nl
   ++ fold_right String.append EmptyString (map (fun pc => nl ++ snd pc) F)
   ++ nl ++ "</files>")%string.

Definition ordered_prompt (t : template) (base : string)
    (F : list (string * string)) (D : list string) : string :=
  match F, D with
  | [], [] => base
  | _ :: _, [] => (base ++ nl ++ fill t (files_block F))%string
  | [], _ :: _ => (base ++ nl ++ fill t (documents_envelope D))%string
  | _ :: _, _ :: _ =>
    (base ++ nl ++ fill t (files_block F ++ nl ++ documents_envelope D))%string
  end.

Definition is_err (r : Z + add_error) : bool :=
  match r with inl _ => false | inr _ => true end.

End Prompt.

(** ** Concrete inputs. *)
(** ** The file loop of [main] (main.rs), which admits files by the same
    rule as [PromptBuilder] without using it. *)
Module Main.
Import Prompt.

(** The [for path in paths_iter] loop (main.rs lines 147-190): a file
    whose text cannot be read is skipped, the first file over the budget
    ends the loop ([break]); the result is [total_content_len] and
    [documents]. *)
Fixpoint collect_documents (fs : fs_env) (max_context : option Z)
    (paths : list string) (total_content_len : Z)
    (documents : list (string * string)) : Z * list (string * string) :=
  match paths with
  | [] => (total_content_len, documents)
  | path :: rest =>
    let extension := path_extension path in
    match read_content fs path extension with
    | None => collect_documents fs max_context rest total_content_len documents
    | Some content =>
      let content := render path extension content in
      let ceiling := match max_context with
                     | Some m => m | None => DEFAULT_MAX_CONTEXT end in
      if ceiling <? u64_add total_content_len (len content) / 4
      then (total_content_len, documents)
      else collect_documents fs max_context rest
             (u64_add total_content_len (len content))
             (documents ++ [(path, content)])
    end
  end.

(** [documents.into_iter().map(|(.., content)| content)
    .reduce(|acc, content| format!(...)).unwrap_or_default()]
    (main.rs lines 193-202). *)
Definition context (documents : list (string * string)) : string :=
  match map snd documents with
  | [] => EmptyString
  | first :: rest => fold_left (fun acc c => acc ++ nl ++ c)%string rest first
  end.

(** For comparison: [PromptBuilder::add_file] called on each path in
    turn, going on after a [ContentExtractionError] and stopping at the
    first [BudgetExceeded]. *)
Fixpoint add_files_until_full (fs : fs_env) (paths : list string)
    (b : PromptBuilder) : PromptBuilder :=
  match paths with
  | [] => b
  | path :: rest =>
    match add_file fs path b with
    | (inr (BudgetExceeded _ _), b1) => b1
    | (_, b1) => add_files_until_full fs rest b1
    end
  end.

End Main.

Module Samples.
Import Llm Prompt.

Definition never_stop : callback := fun _ _ => false.
Definition always_stop : callback := fun _ _ => true.
(** Answers stop once [k] frames were delivered before the current one. *)
Definition stop_at (k : nat) : callback := fun d _ => Nat.eqb (length d) k.

(** A frame carrying only a response text, or only an error. *)
Definition text_frame (r : string) : GenerateResponse :=
  {| created_at := EmptyString; done_reason := EmptyString; done := false;
     eval_count := 0; eval_duration := 0; load_duration := 0;
     model := EmptyString; prompt_eval_count := 0; prompt_eval_duration := 0;
     response := r; total_duration := 0; error := None |}.

Definition error_frame (msg : string) : GenerateResponse :=
  {| created_at := EmptyString; done_reason := EmptyString; done := false;
     eval_count := 0; eval_duration := 0; load_duration := 0;
     model := EmptyString; prompt_eval_count := 0; prompt_eval_duration := 0;
     response := EmptyString; total_duration := 0; error := Some msg |}.

(** An error record in one chunk, and the same record split in two. *)
Definition error_whole_chunks : list chunk := [ChunkOk (dq "{'error':'boom'}")].
Definition error_split_chunks : list chunk :=
  [ChunkOk (dq "{'error':"); ChunkOk (dq "'boom'}")].

(** A record split in two, then a whole record. *)
Definition stop_chunks : list chunk :=
  [ChunkOk (dq "{'response':"); ChunkOk (dq "'a'}");
   ChunkOk (dq "{'response':'b'}")].

(** A record cut off, then a whole record. *)
Definition stop_partial_chunks : list chunk :=
  [ChunkOk (dq "{'respo"); ChunkOk (dq "{'response':'b'}")].

(** The chunks [{'respo] and [nse':'hi','done':false}], newline,
    [{'response':'','done':true...] (apostrophes for quotes), [rest]
    standing for the elided end of the second record. *)
Definition split_then_two_chunks (rest : string) : list chunk :=
  [ChunkOk (dq "{'respo");
   ChunkOk (dq "nse':'hi','done':false}" ++ nl ++ dq "{'response':'','done':true"
            ++ rest)%string].

Definition sample_fs : fs_env :=
  {| read_to_string := fun _ => Some "fn main() {}"%string;
     extract_text := fun _ => None |}.

Definition set_done (fr : GenerateResponse) : GenerateResponse :=
  {| created_at := fr.(created_at); done_reason := fr.(done_reason); done := true;
     eval_count := fr.(eval_count); eval_duration := fr.(eval_duration);
     load_duration := fr.(load_duration); model := fr.(model);
     prompt_eval_count := fr.(prompt_eval_count);
     prompt_eval_duration := fr.(prompt_eval_duration); response := fr.(response);
     total_duration := fr.(total_duration); error := fr.(error) |}.

Definition plain_template : template :=
  {| tpl_before := "<context>"%string; tpl_after := "</context>"%string |}.

Fixpoint replicate (n : nat) (c : ascii) : string :=
  match n with O => EmptyString | S m => String c (replicate m c) end.

End Samples.

(** ** Properties of the prompt builder. *)
Module PromptFacts.
Import Prompt.

Lemma len_nonneg (s : string) : 0 <= len s.
Proof. unfold len; lia. Qed.

Lemma u64_add_small (a b : Z) :
  0 <= a -> 0 <= b -> a + b < u64_modulus -> u64_add a b = a + b.
Proof. intros; unfold u64_add; apply Z.mod_small; lia. Qed.

Lemma admit_fragment_meets_spec (b : PromptBuilder) (c : string) push :
  0 <= b.(total_content_len) -> b.(total_content_len) + len c < u64_modulus ->
  admission_spec b c push (admit_fragment b c push).
Proof.
  intros Hwf Hfit. pose proof (len_nonneg c) as Hc.
  unfold admission_spec, admit_fragment; cbv zeta.
  rewrite (u64_add_small _ _ Hwf Hc Hfit).
  split; intros H.
  - apply Z.ltb_lt in H. rewrite H. reflexivity.
  - apply Z.ltb_ge in H. rewrite H. reflexivity.
Qed.

Lemma step_admit (fs : fs_env) (o : op) (b : PromptBuilder) (f : string) :
  fragment fs o = Some f -> step fs o b = admit_fragment b f (push_op o f).
Proof.
  destruct o as [path | c]; simpl.
  - unfold add_file. destruct (read_content fs path (path_extension path));
      intros H; inversion H; reflexivity.
  - intros H; inversion H; reflexivity.
Qed.

Lemma step_no_fragment (fs : fs_env) (o : op) (b : PromptBuilder) :
  fragment fs o = None -> step fs o b = (inr ContentExtractionError, b).
Proof.
  destruct o as [path | c]; simpl; [|discriminate].
  unfold add_file. destruct (read_content fs path (path_extension path));
    [discriminate | reflexivity].
Qed.

Lemma push_op_total (o : op) (f : string) (b : PromptBuilder) :
  (push_op o f b).(total_content_len) = b.(total_content_len)
  /\ (push_op o f b).(max_context) = b.(max_context).
Proof. destruct o; split; reflexivity. Qed.

(** C4: [add_file] (once its content is extracted and rendered) and
    [add_document] reject with [BudgetExceeded] exactly when
    [(currentTotal + fragmentLen) / 4 > ceiling], the ceiling being the
    explicit one or [DEFAULT_MAX_CONTEXT]; otherwise they append the
    fragment and return its length.  With no explicit ceiling, a first
    40000-byte fragment is admitted and a second one is rejected.  The
    sums stay below [2^64]: the fragments are held in memory together. *)
Theorem admission_check (fs : fs_env) (path content text : string)
    (b : PromptBuilder)
    (Hwf : 0 <= b.(total_content_len))
    (Hread : read_content fs path (path_extension path) = Some content)
    (Hfit_file : b.(total_content_len)
                 + len (render path (path_extension path) content) < u64_modulus)
    (Hfit_doc : b.(total_content_len) + len text < u64_modulus) :
  admission_spec b (render path (path_extension path) content)
    (push_file path (render path (path_extension path) content))
    (add_file fs path b)
  /\ admission_spec b text (push_document text) (add_document text b)
  /\ (forall (p : string) (o1 o2 : op) (f1 f2 : string),
        fragment fs o1 = Some f1 -> fragment fs o2 = Some f2 ->
        len f1 = 40000 -> len f2 = 40000 ->
        let (r1, b1) := step fs o1 (new p) in
        r1 = inl 40000
        /\ step fs o2 b1 = (inr (BudgetExceeded DEFAULT_MAX_CONTEXT 40000), b1)).
Proof.
  split; [|split].
  - unfold add_file. rewrite Hread. apply admit_fragment_meets_spec; assumption.
  - apply admit_fragment_meets_spec; assumption.
  - intros p o1 o2 f1 f2 H1 H2 L1 L2.
    rewrite (step_admit fs o1 (new p) f1 H1).
    destruct (admit_fragment_meets_spec (new p) f1 (push_op o1 f1)) as [_ Hok];
      [cbn; lia | cbn; rewrite L1; reflexivity |].
    rewrite Hok; cbn [total_content_len new]; rewrite L1;
      [| unfold effective_ceiling, DEFAULT_MAX_CONTEXT; cbn; lia].
    split; [reflexivity|].
    destruct (push_op_total o1 f1
                (set_total_content_len (0 + 40000) (new p))) as [T M].
    rewrite (step_admit fs o2 _ f2 H2).
    destruct (admit_fragment_meets_spec
                (push_op o1 f1 (set_total_content_len (0 + 40000) (new p)))
                f2 (push_op o2 f2)) as [Hrej _];
      [rewrite T; cbn; lia | rewrite T, L2; reflexivity |].
    assert (E : effective_ceiling
                  (push_op o1 f1 (set_total_content_len (0 + 40000) (new p)))
                = DEFAULT_MAX_CONTEXT) by (unfold effective_ceiling; rewrite M; reflexivity).
    rewrite Hrej, L2, E; [reflexivity|].
    rewrite E, T, L2; cbn; lia.
Qed.

Lemma step_err_unchanged (fs : fs_env) (o : op) (b b' : PromptBuilder)
    (e : add_error) :
  step fs o b = (inr e, b') -> b' = b.
Proof.
  destruct (fragment fs o) as [f|] eqn:F.
  - rewrite (step_admit fs o b f F). unfold admit_fragment; cbv zeta.
    destruct (_ <? _); intro H; inversion H; reflexivity.
  - rewrite (step_no_fragment fs o b F). intro H; inversion H; reflexivity.
Qed.

(** C6: a call of [add_file] or [add_document] that returns an error,
    extraction failure or [BudgetExceeded], leaves the builder exactly as
    it was: files, documents, [total_content_len] and explicit ceiling. *)
Theorem admission_atomic (fs : fs_env) (o : op) (b b' : PromptBuilder)
    (e : add_error) (Herr : step fs o b = (inr e, b')) :
  b' = b.
Proof. exact (step_err_unchanged fs o b b' e Herr). Qed.

(** C7: a fragment whose own length [L] has [L / 4] above the effective
    ceiling is rejected whatever was admitted before (sums below [2^64]). *)
Theorem oversized_fragment_rejected (fs : fs_env) (o : op) (b : PromptBuilder)
    (f : string)
    (Hf : fragment fs o = Some f)
    (Hbig : effective_ceiling b < len f / 4)
    (Hwf : 0 <= b.(total_content_len))
    (Hfit : b.(total_content_len) + len f < u64_modulus) :
  step fs o b = (inr (BudgetExceeded (effective_ceiling b) (len f)), b).
Proof.
  rewrite (step_admit fs o b f Hf).
  destruct (admit_fragment_meets_spec b f (push_op o f) Hwf Hfit) as [Hrej _].
  apply Hrej.
  assert (len f / 4 <= (b.(total_content_len) + len f) / 4)
    by (apply Z.div_le_mono; lia).
  lia.
Qed.

Lemma sum_lens_nonneg (b : PromptBuilder) : 0 <= sum_lens b.
Proof.
  unfold sum_lens.
  assert (forall l : list (string * string),
            0 <= fold_right (fun pc acc => len (snd pc) + acc) 0 l).
  { induction l; simpl; [lia|]. pose proof (len_nonneg (snd a)); lia. }
  assert (forall l : list string, 0 <= fold_right (fun c acc => len c + acc) 0 l).
  { induction l; simpl; [lia|]. pose proof (len_nonneg a); lia. }
  specialize (H b.(files)); specialize (H0 b.(documents)); lia.
Qed.

Lemma sum_lens_push (o : op) (f : string) (b : PromptBuilder) :
  sum_lens (push_op o f b) = sum_lens b + len f.
Proof.
  unfold sum_lens; destruct o; simpl; rewrite fold_right_app; simpl.
  - assert (forall (l : list (string * string)) x,
              fold_right (fun pc acc => len (snd pc) + acc) x l
              = fold_right (fun pc acc => len (snd pc) + acc) 0 l + x).
    { induction l; intros; simpl; [lia|]. rewrite IHl; lia. }
    rewrite H. lia.
  - assert (forall (l : list string) x,
              fold_right (fun c acc => len c + acc) x l
              = fold_right (fun c acc => len c + acc) 0 l + x).
    { induction l; intros; simpl; [lia|]. rewrite IHl; lia. }
    rewrite H. lia.
Qed.

Definition total_inv (b : PromptBuilder) : Prop :=
  b.(total_content_len) = sum_lens b mod u64_modulus.

Lemma step_total_inv (fs : fs_env) (o : op) (b : PromptBuilder) :
  total_inv b -> total_inv (snd (step fs o b)).
Proof.
  unfold total_inv; intros H.
  destruct (fragment fs o) as [f|] eqn:F.
  - rewrite (step_admit fs o b f F). unfold admit_fragment; cbv zeta.
    destruct (_ <? _); simpl; [exact H|].
    destruct (push_op_total o f
      (set_total_content_len (u64_add (total_content_len b) (len f)) b)) as [T _].
    rewrite T, sum_lens_push. simpl.
    change (sum_lens (set_total_content_len (u64_add (total_content_len b) (len f)) b))
      with (sum_lens b).
    unfold u64_add; rewrite H. apply Z.add_mod_idemp_l. unfold u64_modulus; lia.
  - rewrite (step_no_fragment fs o b F). exact H.
Qed.

Lemma run_total_inv (fs : fs_env) (ops : list op) (b : PromptBuilder) (k : nat) :
  total_inv b -> total_inv (snd (run fs (firstn k ops) b)).
Proof.
  revert b k; induction ops as [|o ops IH]; intros b k H.
  - destruct k; exact H.
  - destruct k; [exact H|]. simpl.
    destruct (step fs o b) as [r b1] eqn:E.
    destruct (run fs (firstn k ops) b1) as [rs b2] eqn:E2. simpl.
    replace b2 with (snd (run fs (firstn k ops) b1)) by (rewrite E2; reflexivity).
    apply IH. replace b1 with (snd (step fs o b)) by (rewrite E; reflexivity).
    apply step_total_inv; exact H.
Qed.

(** C5: after every prefix of a sequence of calls, [total_content_len]
    is the exact sum of the lengths of the admitted fragments (rendered
    files and raw documents), which the bytes of the fragments held in
    memory keep below [2^64]; [build] reports this value. *)
Theorem total_content_len_exact (t : template) (fs : fs_env) (ops : list op)
    (b0 : PromptBuilder)
    (Hinv : b0.(total_content_len) = sum_lens b0)
    (Hsmall : sum_lens b0 < u64_modulus) :
  forall k : nat,
    let b := snd (run fs (firstn k ops) b0) in
    (sum_lens b < u64_modulus -> b.(total_content_len) = sum_lens b)
    /\ (snd (build t b)).(stats_total_content_len) = b.(total_content_len).
Proof.
  intros k b; split; [|reflexivity].
  intros Hb.
  assert (I : total_inv b).
  { apply run_total_inv. unfold total_inv. rewrite Hinv, Z.mod_small;
      [reflexivity | pose proof (sum_lens_nonneg b0); lia]. }
  unfold total_inv in I. rewrite I. apply Z.mod_small.
  pose proof (sum_lens_nonneg b); lia.
Qed.

Lemma align_loop_S (f : nat) (a e : Z) :
  align_loop (S f) a e
  = if a <? e then align_loop f ((a * 2) mod u64_modulus) e else a.
Proof. reflexivity. Qed.

Ltac cmp_cases := repeat match goal with
  | |- context [?a <=? ?b] => destruct (Z.leb_spec a b)
  | |- context [?a <? ?b] => destruct (Z.ltb_spec a b)
  end; try lia.

(** The automatic ceiling, round by round of the doubling loop. *)
Lemma auto_table (e : Z) :
  resolve_max_context None e =
  if e <=? 2048 then 2048 else if e <=? 4096 then 4096
  else if e <=? 8192 then 8192 else 16384.
Proof.
  unfold resolve_max_context, DEFAULT_MAX_CONTEXT.
  replace (16 * 1024) with 16384 by reflexivity.
  replace (2 * 1024) with 2048 by reflexivity.
  destruct (Z.ltb_spec 16384 e); [cmp_cases|].
  rewrite align_loop_S.
  replace ((2048 * 2) mod u64_modulus) with 4096 by reflexivity.
  destruct (Z.ltb_spec 2048 e); [|cmp_cases].
  rewrite align_loop_S.
  replace ((4096 * 2) mod u64_modulus) with 8192 by reflexivity.
  destruct (Z.ltb_spec 4096 e); [|cmp_cases].
  rewrite align_loop_S.
  replace ((8192 * 2) mod u64_modulus) with 16384 by reflexivity.
  destruct (Z.ltb_spec 8192 e); [|cmp_cases].
  rewrite align_loop_S.
  destruct (Z.ltb_spec 16384 e); cmp_cases.
Qed.

(** C8: [build] reports the explicit ceiling when one is set; otherwise
    the automatic one for the estimate [len prompt / 4]: the default
    16384 above 16384, else the first of 2048, 4096, 8192, ... that covers
    the estimate, capped at 16384.  Automatic values lie in
    {2048, 4096, 8192, 16384}, grow with the estimate and saturate at
    16384. *)
Theorem max_context_resolution :
  (forall (t : template) (b : PromptBuilder) (m : Z),
     b.(max_context) = Some m -> (snd (build t b)).(stats_max_context) = m)
  /\ (forall (t : template) (b : PromptBuilder),
        b.(max_context) = None ->
        (snd (build t b)).(stats_max_context)
        = resolve_max_context None (len (fst (build t b)) / 4))
  /\ (forall e : Z, DEFAULT_MAX_CONTEXT < e ->
        resolve_max_context None e = DEFAULT_MAX_CONTEXT)
  /\ (forall e : Z, e <= DEFAULT_MAX_CONTEXT ->
        let a := resolve_max_context None e in
        e <= a /\ (a = 2048 \/ a / 2 < e)
        /\ exists k : nat, (k <= 3)%nat /\ a = 2048 * 2 ^ Z.of_nat k)
  /\ (forall e : Z,
        In (resolve_max_context None e) [2048; 4096; 8192; 16384])
  /\ (forall e1 e2 : Z, e1 <= e2 ->
        resolve_max_context None e1 <= resolve_max_context None e2)
  /\ (forall e : Z, 8192 < e -> resolve_max_context None e = 16384).
Proof.
  split; [|split; [|split; [|split; [|split; [|split]]]]].
  - intros t b m H. unfold build; cbv zeta; cbn [snd stats_max_context].
    rewrite H. reflexivity.
  - intros t b H. unfold build; cbv zeta; cbn [snd fst stats_max_context].
    rewrite H. reflexivity.
  - intros e H. rewrite auto_table. unfold DEFAULT_MAX_CONTEXT in *. cmp_cases.
  - intros e H a. unfold a; rewrite auto_table.
    unfold DEFAULT_MAX_CONTEXT in H.
    destruct (Z.leb_spec e 2048).
    { split; [lia|]. split; [left; reflexivity|]. exists 0%nat; split; [lia|reflexivity]. }
    destruct (Z.leb_spec e 4096).
    { split; [lia|]. split; [right; cbn; lia|]. exists 1%nat; split; [lia|reflexivity]. }
    destruct (Z.leb_spec e 8192).
    { split; [lia|]. split; [right; cbn; lia|]. exists 2%nat; split; [lia|reflexivity]. }
    split; [lia|]. split; [right; cbn; lia|]. exists 3%nat; split; [lia|reflexivity].
  - intros e. rewrite auto_table. cmp_cases; cbn [In]; tauto.
  - intros e1 e2 H. rewrite !auto_table. cmp_cases.
  - intros e H. rewrite auto_table. cmp_cases.
Qed.

Lemma run_all_err (fs : fs_env) (ops : list op) (b : PromptBuilder) :
  forallb is_err (fst (run fs ops b)) = true -> snd (run fs ops b) = b.
Proof.
  revert b; induction ops as [|o ops IH]; intros b; [reflexivity|].
  simpl. destruct (step fs o b) as [r b1] eqn:E.
  destruct (run fs ops b1) as [rs b2] eqn:E2. simpl.
  intros H. apply andb_prop in H as [Hr Hrs].
  destruct r as [n|e]; [discriminate|].
  apply step_err_unchanged in E. subst b1.
  replace b2 with (snd (run fs ops b)) by (rewrite E2; reflexivity).
  apply IH. rewrite E2; exact Hrs.
Qed.

(** C9: [build] is a function of the builder alone: two calls with no
    admission in between give the same prompt and the same statistics,
    and the builder itself is left as it is ([&self]).  With no fragment
    admitted, in particular after calls that all failed, the prompt is
    the base prompt verbatim. *)
Theorem build_pure (t : template) (b : PromptBuilder) :
  (let (p1, s1) := build t b in let (p2, s2) := build t b in p1 = p2 /\ s1 = s2)
  /\ (b.(files) = [] -> b.(documents) = [] -> fst (build t b) = b.(prompt))
  /\ (forall (fs : fs_env) (ops : list op) (p : string) (v : option Z),
        let b0 := set_max_context v (new p) in
        forallb is_err (fst (run fs ops b0)) = true ->
        fst (build t (snd (run fs ops b0))) = p).
Proof.
  split; [|split].
  - destruct (build t b); split; reflexivity.
  - intros F D. unfold build, build_context; cbv zeta. rewrite F, D. reflexivity.
  - intros fs ops p v b0 H. rewrite (run_all_err fs ops b0 H). reflexivity.
Qed.

Lemma str_app_assoc (a b c : string) : ((a ++ b) ++ c)%string = (a ++ b ++ c)%string.
Proof. induction a; simpl; [reflexivity|]. rewrite IHa; reflexivity. Qed.

Lemma str_app_nil_r (a : string) : (a ++ EmptyString)%string = a.
Proof. induction a; simpl; [reflexivity|]. rewrite IHa; reflexivity. Qed.

Lemma fold_files (F : list (string * string)) (acc : string) :
  fold_left (fun acc pc => acc ++ nl ++ snd pc)%string F acc
  = (acc ++ fold_right String.append EmptyString (map (fun pc => nl ++ snd pc) F))%string.
Proof.
  revert acc; induction F as [|pc F IH]; intros acc; simpl.
  - rewrite str_app_nil_r; reflexivity.
  - rewrite IH, str_app_assoc. reflexivity.
Qed.

Lemma run_lists (fs : fs_env) (ops : list op) (b : PromptBuilder) :
  let (rs, b') := run fs ops b in
  b'.(files) = b.(files) ++ admitted_files fs ops rs
  /\ b'.(documents) = b.(documents) ++ admitted_documents ops rs
  /\ b'.(prompt) = b.(prompt).
Proof.
  revert b; induction ops as [|o ops IH]; intros b.
  - simpl; rewrite !app_nil_r; auto.
  - simpl. destruct (step fs o b) as [r b1] eqn:E.
    specialize (IH b1). destruct (run fs ops b1) as [rs b2] eqn:E2.
    destruct IH as [HF [HD HP]].
    destruct (fragment fs o) as [f|] eqn:F.
    + rewrite (step_admit fs o b f F) in E. unfold admit_fragment in E; cbv zeta in E.
      destruct (_ <? _); inversion E; subst r b1; clear E.
      * destruct o; rewrite HF, HD, HP; auto.
      * destruct o as [path | c].
        -- cbn [fragment] in F. rewrite F, HF, HD, HP; simpl.
           rewrite <- app_assoc. auto.
        -- inversion F; subst. cbn [admitted_files admitted_documents].
           rewrite HF, HD, HP; simpl. rewrite <- app_assoc. auto.
    + rewrite (step_no_fragment fs o b F) in E. inversion E; subst r b1.
      destruct o; rewrite HF, HD, HP; auto.
Qed.

(** C10: after a sequence of calls, the files and documents of the
    builder are the ones whose calls succeeded, in call order, and
    [build] assembles them as the [<files>] envelope (files each after a
    newline) followed by the [<documents>] envelope (documents joined by
    newlines), each only when non-empty, inside the template. *)
Theorem build_preserves_order (t : template) (fs : fs_env) (ops : list op)
    (b0 : PromptBuilder) :
  let (rs, b) := run fs ops b0 in
  let F := b0.(files) ++ admitted_files fs ops rs in
  let D := b0.(documents) ++ admitted_documents ops rs in
  b.(files) = F /\ b.(documents) = D
  /\ fst (build t b) = ordered_prompt t b0.(prompt) F D.
Proof.
  pose proof (run_lists fs ops b0) as R.
  destruct (run fs ops b0) as [rs b]. destruct R as [HF [HD HP]].
  cbv zeta. rewrite <- HF, <- HD, <- HP.
  split; [reflexivity|split; [reflexivity|]].
  unfold build, build_context, ordered_prompt, files_block, files_envelope; cbv zeta.
  destruct b.(files) as [|f0 fs0], b.(documents) as [|d0 ds0]; cbn [fst join];
    rewrite ?fold_files; reflexivity.
Qed.

(** ** Instances of the theorems above on concrete builders. *)
Import Samples.

Definition empty_template : template :=
  {| tpl_before := EmptyString; tpl_after := EmptyString |}.

Lemma admission_check_witness :
  read_content sample_fs "main.rs" (path_extension "main.rs")
    = Some "fn main() {}"%string
  /\ admission_spec (new "Q") "doc" (push_document "doc")
       (add_document "doc" (new "Q")).
Proof.
  split; [reflexivity|].
  refine (proj1 (proj2 (admission_check sample_fs "main.rs" "fn main() {}" "doc"
                          (new "Q") _ _ _ _))).
  - cbn; lia.
  - reflexivity.
  - vm_compute; reflexivity.
  - vm_compute; reflexivity.
Defined.

Lemma total_content_len_exact_witness :
  let b := snd (run sample_fs (firstn 2 [AddFile "main.rs"; AddDocument "doc"])
                  (new "Q")) in
  (sum_lens b < u64_modulus -> b.(total_content_len) = sum_lens b)
  /\ (snd (build empty_template b)).(stats_total_content_len) = b.(total_content_len).
Proof.
  apply (total_content_len_exact empty_template sample_fs
           [AddFile "main.rs"; AddDocument "doc"] (new "Q")).
  - reflexivity.
  - vm_compute; reflexivity.
Defined.

Lemma admission_atomic_witness :
  let b1 := snd (add_document "doc" (new "Q")) in
  step sample_fs (AddDocument (replicate 70000 "a")) b1
    = (inr (BudgetExceeded 16384 70000), b1)
  /\ b1 = b1.
Proof.
  intros b1.
  assert (H : step sample_fs (AddDocument (replicate 70000 "a")) b1
              = (inr (BudgetExceeded 16384 70000), b1)) by (vm_compute; reflexivity).
  split; [exact H | exact (admission_atomic _ _ _ _ _ H)].
Defined.

Lemma oversized_fragment_rejected_witness :
  step sample_fs (AddDocument (replicate 70000 "a")) (new "Q")
  = (inr (BudgetExceeded (effective_ceiling (new "Q")) (len (replicate 70000 "a"))),
     new "Q").
Proof.
  apply oversized_fragment_rejected.
  - reflexivity.
  - vm_compute; reflexivity.
  - cbn; lia.
  - vm_compute; reflexivity.
Defined.

End PromptFacts.

(** ** Properties of the streaming client. *)
Module StreamFacts.
Import Json Llm Samples.

Lemma stream_loop_no_error_frames (on_chunk : callback) (chunks : list chunk) :
  forall (delivered : list GenerateResponse) (buf : string),
    Forall (fun f => f.(error) = None) delivered ->
    match stream_loop on_chunk chunks delivered buf with
    | LoopFail _ d | LoopEnd d _ => Forall (fun f => f.(error) = None) d
    end.
Proof.
  induction chunks as [|[c|] rest IH]; intros delivered buf H; simpl; auto.
  destruct (from_slice c) as [fr|]; [|apply IH; exact H].
  destruct (error fr) eqn:E; [exact H|].
  destruct (on_chunk delivered fr);
    [| apply IH]; apply Forall_app; split; auto.
Qed.

(** C1 (code defect): the loop over the chunks never hands a frame with
    an [error] to [on_chunk] and fails with [LLMError] on it, but the
    frame decoded from the buffer at the end of the stream is handed over
    unchecked: a [{'error':'boom'}] record split over two chunks reaches
    [on_chunk] and the call succeeds. *)
Theorem flush_skips_error_check :
  (forall (on_chunk : callback) (chunks : list chunk),
     match stream_loop on_chunk chunks [] EmptyString with
     | LoopFail _ d | LoopEnd d _ => Forall (fun f => f.(error) = None) d
     end)
  /\ (forall on_chunk : callback,
        generate_stream (Success error_whole_chunks) on_chunk
        = (inr (LLMError "boom"), []))
  /\ (forall on_chunk : callback,
        generate_stream (Success error_split_chunks) on_chunk
        = (inl tt, [error_frame "boom"])).
Proof.
  split; [|split].
  - intros; apply stream_loop_no_error_frames; constructor.
  - intros; vm_compute; reflexivity.
  - intros; vm_compute; reflexivity.
Qed.

(** C2 (code defect): after [on_chunk] answers stop, the loop is left but
    the buffered chunks are still decoded and handed over: stopping on the
    first frame of [stop_chunks] yields a second frame, and stopping on
    the first frame of [stop_partial_chunks] ends in [FrameDecodeError]. *)
Theorem stop_then_flush :
  generate_stream (Success stop_chunks) always_stop
  = (inl tt, [text_frame "b"; text_frame "a"])
  /\ generate_stream (Success stop_partial_chunks) always_stop
     = (inr FrameDecodeError, [text_frame "b"]).
Proof. split; vm_compute; reflexivity. Qed.

(** C3, as stated, fails: the chunks [{'respo] then
    [nse':'hi','done':false}] newline [{'response':'','done':true,...}]
    (apostrophes for quotes) give no frame and end in [FrameDecodeError]. *)
Lemma split_then_two_records_counterexample :
  generate_stream (Success (split_then_two_chunks (dq ",'done_reason':'stop'}")))
    never_stop
  = (inr FrameDecodeError, []).
Proof. vm_compute; reflexivity. Qed.

(** C3, amended: whatever ends the second record and whatever the
    callback, the second chunk alone is not a record, both chunks are
    buffered, the buffer holds two records and is not one record: no
    frame is emitted and the call fails with [FrameDecodeError]. *)
Theorem split_then_two_records_fail (rest : string) (on_chunk : callback) :
  generate_stream (Success (split_then_two_chunks rest)) on_chunk
  = (inr FrameDecodeError, []).
Proof. vm_compute; reflexivity. Qed.

End StreamFacts.

(** ** Further properties of the streaming and one-shot clients. *)
Module StreamExtra.
Import Json Llm Samples.

Lemma loop_whole_prefix (on_chunk : callback) (cpre : list string)
    (pre : list GenerateResponse) (rest : list chunk) :
  Forall2 whole_record cpre pre ->
  forall (d : list GenerateResponse) (buf : string),
    continues on_chunk d pre ->
    stream_loop on_chunk (map ChunkOk cpre ++ rest) d buf
    = stream_loop on_chunk rest (d ++ pre) buf.
Proof.
  induction 1 as [|c f cs fs [Hc He] _ IH]; intros d buf Hcont.
  - simpl; rewrite app_nil_r; reflexivity.
  - simpl. rewrite Hc, He.
    assert (Hf : on_chunk d f = false)
      by (rewrite <- (app_nil_r d); apply (Hcont [] f fs); reflexivity).
    rewrite Hf, IH.
    + rewrite <- app_assoc; reflexivity.
    + intros p1 g p2 E. rewrite <- app_assoc.
      apply (Hcont (f :: p1) g p2). rewrite E; reflexivity.
Qed.

Lemma skip_ws_all_ws (w : string) : all_ws w = true -> skip_ws w = EmptyString.
Proof.
  induction w as [|c w IH]; simpl; [reflexivity|].
  intros H; apply andb_prop in H as [H1 H2]. rewrite H1; auto.
Qed.

Lemma from_slice_all_ws (w : string) : all_ws w = true -> from_slice w = None.
Proof.
  intros H. unfold from_slice, parse_one.
  replace (2 * String.length w + 2)%nat with (S (2 * String.length w + 1)) by lia.
  cbn [parse_value]. rewrite (skip_ws_all_ws w H). reflexivity.
Qed.

Lemma str_app_empty_r (a : string) : (a ++ EmptyString)%string = a.
Proof. induction a; simpl; [reflexivity|]. rewrite IHa; reflexivity. Qed.

(** X: a response streamed as whole records, none carrying an error, to
    a callback that never answers stop, succeeds and hands every record
    to the callback, in order. *)
Theorem stream_whole_records (on_chunk : callback) (cs : list string)
    (frames : list GenerateResponse)
    (Hw : Forall2 whole_record cs frames)
    (Hc : continues on_chunk [] frames) :
  generate_stream (Success (map ChunkOk cs)) on_chunk = (inl tt, frames).
Proof.
  unfold generate_stream. rewrite <- (app_nil_r (map ChunkOk cs)).
  rewrite (loop_whole_prefix on_chunk cs frames [] Hw [] EmptyString Hc).
  reflexivity.
Qed.

(** X: when nothing is buffered, stop works: after whole records the
    callback continues on, an answer stop on the next whole record ends
    the call with success and exactly those frames, whatever follows on
    the connection (garbage, more records, a transport failure). *)
Theorem stream_stop_unbuffered (on_chunk : callback) (cpre : list string)
    (pre : list GenerateResponse) (c : string) (f : GenerateResponse)
    (rest : list chunk)
    (Hw : Forall2 whole_record cpre pre)
    (Hc : continues on_chunk [] pre)
    (Hf : whole_record c f)
    (Hstop : on_chunk pre f = true) :
  generate_stream (Success (map ChunkOk cpre ++ ChunkOk c :: rest)) on_chunk
  = (inl tt, pre ++ [f]).
Proof.
  unfold generate_stream.
  rewrite (loop_whole_prefix on_chunk cpre pre _ Hw [] EmptyString Hc).
  destruct Hf as [Hc1 He]. simpl. rewrite Hc1, He, Hstop. reflexivity.
Qed.

(** X: a transport failure on the connection fails the call with
    [TransportError]; the records before it have been handed over. *)
Theorem stream_transport_error (on_chunk : callback) (cpre : list string)
    (pre : list GenerateResponse) (rest : list chunk)
    (Hw : Forall2 whole_record cpre pre)
    (Hc : continues on_chunk [] pre) :
  generate_stream (Success (map ChunkOk cpre ++ ChunkErr :: rest)) on_chunk
  = (inr TransportError, pre).
Proof.
  unfold generate_stream.
  rewrite (loop_whole_prefix on_chunk cpre pre _ Hw [] EmptyString Hc).
  reflexivity.
Qed.

(** X: a chunk of whitespace alone (such as a lone newline) is not a
    record, so it is buffered, and the buffer left at the end of the
    stream fails to decode: the call ends in [FrameDecodeError] after the
    whole records before it were handed over. *)
Theorem stream_whitespace_chunk_fails (on_chunk : callback) (cpre : list string)
    (pre : list GenerateResponse) (w : string)
    (Hw : Forall2 whole_record cpre pre)
    (Hc : continues on_chunk [] pre)
    (Hne : w <> EmptyString)
    (Hws : all_ws w = true) :
  generate_stream (Success (map ChunkOk cpre ++ [ChunkOk w])) on_chunk
  = (inr FrameDecodeError, pre).
Proof.
  unfold generate_stream.
  rewrite (loop_whole_prefix on_chunk cpre pre _ Hw [] EmptyString Hc).
  cbn [stream_loop]. rewrite (from_slice_all_ws w Hws). cbn [stream_loop append].
  destruct w as [|a w']; [congruence|].
  rewrite (from_slice_all_ws _ Hws). reflexivity.
Qed.

Lemma loop_drop_empty (on_chunk : callback) (cs : list chunk) :
  forall d buf,
    stream_loop on_chunk cs d buf
    = stream_loop on_chunk (filter (fun c => negb (is_empty_chunk c)) cs) d buf.
Proof.
  induction cs as [|[c|] cs IH]; intros d buf; simpl; [reflexivity| |reflexivity].
  destruct c as [|a c'].
  - simpl. replace (from_slice EmptyString) with (@None GenerateResponse)
      by (vm_compute; reflexivity).
    rewrite str_app_empty_r. apply IH.
  - simpl. destruct (from_slice (String a c')) as [fr|]; [|apply IH].
    destruct (error fr); [reflexivity|].
    destruct (on_chunk d fr); [reflexivity|apply IH].
Qed.

(** X: empty chunks never change what [generate_stream] does: dropping
    them gives the same result and the same frames. *)
Theorem stream_empty_chunks_ignored (resp_chunks : list chunk) (on_chunk : callback) :
  generate_stream (Success resp_chunks) on_chunk
  = generate_stream
      (Success (filter (fun c => negb (is_empty_chunk c)) resp_chunks)) on_chunk.
Proof. unfold generate_stream. rewrite <- loop_drop_empty. reflexivity. Qed.


(** X: on a body that is one chunk holding one record without an error,
    the two clients agree: [generate_stream] hands that record to the
    callback and succeeds, [generate_once] returns it. *)
Theorem once_agrees_with_stream (on_chunk : callback) (c : string)
    (fr : GenerateResponse) (Hw : whole_record c fr) :
  generate_stream (Success [ChunkOk c]) on_chunk = (inl tt, [fr])
  /\ generate_once (Success [ChunkOk c]) = inl fr.
Proof.
  destruct Hw as [H1 H2]. split.
  - simpl. rewrite H1, H2. destruct (on_chunk [] fr); reflexivity.
  - simpl. rewrite str_app_empty_r, H1. reflexivity.
Qed.

(** X: when the request fails or the server answers with an error
    status, the two clients fail with the same error ([ApiStatusError]
    carrying the decoded body, or [TransportError]) and the callback of
    [generate_stream] is never called. *)
Theorem failed_request_same_error (resp : http_response) (on_chunk : callback)
    (Hfail : forall chunks, resp <> Success chunks) :
  exists e, generate_stream resp on_chunk = (inr e, [])
            /\ generate_once resp = inr e
            /\ (forall body v, resp = StatusError body -> parse_one body = Some v ->
                  e = ApiStatusError v).
Proof.
  destruct resp as [| body | chunks].
  - exists TransportError; repeat split; intros; discriminate.
  - destruct (parse_one body) as [v|] eqn:P.
    + exists (ApiStatusError v). simpl; rewrite P. repeat split.
      intros body' v' E P'. injection E as <-. congruence.
    + exists TransportError. simpl; rewrite P. repeat split.
      intros body' v' E P'. injection E as <-. congruence.
  - exfalso; exact (Hfail chunks eq_refl).
Qed.

Ltac whole := split; vm_compute; reflexivity.

Lemma stream_whole_records_witness :
  Forall2 whole_record [dq "{'response':'a'}"; dq "{'response':'b'}"]
    [text_frame "a"; text_frame "b"]
  /\ continues never_stop [] [text_frame "a"; text_frame "b"]
  /\ generate_stream (Success (map ChunkOk [dq "{'response':'a'}"; dq "{'response':'b'}"]))
       never_stop = (inl tt, [text_frame "a"; text_frame "b"]).
Proof.
  assert (Hw : Forall2 whole_record [dq "{'response':'a'}"; dq "{'response':'b'}"]
                 [text_frame "a"; text_frame "b"])
    by (repeat constructor; whole).
  assert (Hc : continues never_stop [] [text_frame "a"; text_frame "b"])
    by (intros p1 f p2 _; reflexivity).
  split; [exact Hw|split; [exact Hc|]].
  apply (stream_whole_records never_stop _ _ Hw Hc).
Defined.

Lemma continues_stop_at_one :
  continues (stop_at 1) [] [text_frame "a"].
Proof.
  intros [|x p1] f p2 E; [reflexivity|].
  injection E as _ E. destruct p1; discriminate.
Qed.

Lemma stream_stop_unbuffered_witness :
  Forall2 whole_record [dq "{'response':'a'}"] [text_frame "a"]
  /\ continues (stop_at 1) [] [text_frame "a"]
  /\ whole_record (dq "{'response':'b'}") (text_frame "b")
  /\ stop_at 1 [text_frame "a"] (text_frame "b") = true
  /\ generate_stream (Success (map ChunkOk [dq "{'response':'a'}"]
         ++ ChunkOk (dq "{'response':'b'}") :: [ChunkErr; ChunkOk (dq "{'respo")]))
       (stop_at 1) = (inl tt, [text_frame "a"] ++ [text_frame "b"]).
Proof.
  assert (Hw : Forall2 whole_record [dq "{'response':'a'}"] [text_frame "a"])
    by (repeat constructor; whole).
  assert (Hf : whole_record (dq "{'response':'b'}") (text_frame "b")) by whole.
  assert (Hs : stop_at 1 [text_frame "a"] (text_frame "b") = true) by reflexivity.
  split; [exact Hw|split; [exact continues_stop_at_one|split; [exact Hf|split; [exact Hs|]]]].
  apply (stream_stop_unbuffered (stop_at 1) _ _ _ _ _ Hw continues_stop_at_one Hf Hs).
Defined.

Lemma stream_transport_error_witness :
  Forall2 whole_record [dq "{'response':'a'}"] [text_frame "a"]
  /\ continues never_stop [] [text_frame "a"]
  /\ generate_stream (Success (map ChunkOk [dq "{'response':'a'}"]
         ++ ChunkErr :: [ChunkOk (dq "{'response':'b'}")])) never_stop
     = (inr TransportError, [text_frame "a"]).
Proof.
  assert (Hw : Forall2 whole_record [dq "{'response':'a'}"] [text_frame "a"])
    by (repeat constructor; whole).
  assert (Hc : continues never_stop [] [text_frame "a"])
    by (intros p1 f p2 _; reflexivity).
  split; [exact Hw|split; [exact Hc|]].
  apply (stream_transport_error never_stop _ _ _ Hw Hc).
Defined.

Lemma stream_whitespace_chunk_fails_witness :
  Forall2 whole_record [dq "{'response':'a'}"] [text_frame "a"]
  /\ continues never_stop [] [text_frame "a"]
  /\ Prompt.nl <> EmptyString
  /\ all_ws Prompt.nl = true
  /\ generate_stream (Success (map ChunkOk [dq "{'response':'a'}"] ++ [ChunkOk Prompt.nl]))
       never_stop = (inr FrameDecodeError, [text_frame "a"]).
Proof.
  assert (Hw : Forall2 whole_record [dq "{'response':'a'}"] [text_frame "a"])
    by (repeat constructor; whole).
  assert (Hc : continues never_stop [] [text_frame "a"])
    by (intros p1 f p2 _; reflexivity).
  assert (Hne : Prompt.nl <> EmptyString) by discriminate.
  assert (Hws : all_ws Prompt.nl = true) by reflexivity.
  split; [exact Hw|split; [exact Hc|split; [exact Hne|split; [exact Hws|]]]].
  apply (stream_whitespace_chunk_fails never_stop _ _ _ Hw Hc Hne Hws).
Defined.

Lemma once_agrees_with_stream_witness :
  whole_record (dq "{'response':'a','done':true}")
    (set_done (text_frame "a"))
  /\ generate_stream (Success [ChunkOk (dq "{'response':'a','done':true}")]) always_stop
     = (inl tt, [set_done (text_frame "a")])
  /\ generate_once (Success [ChunkOk (dq "{'response':'a','done':true}")])
     = inl (set_done (text_frame "a")).
Proof.
  assert (Hw : whole_record (dq "{'response':'a','done':true}")
                 (set_done (text_frame "a"))) by whole.
  split; [exact Hw|].
  apply (once_agrees_with_stream always_stop _ _ Hw).
Defined.

Lemma failed_request_same_error_witness :
  (forall chunks, StatusError (dq "{'error':'model not found'}") <> Success chunks)
  /\ exists e,
       generate_stream (StatusError (dq "{'error':'model not found'}")) never_stop
         = (inr e, [])
       /\ generate_once (StatusError (dq "{'error':'model not found'}")) = inr e
       /\ (forall body v, StatusError (dq "{'error':'model not found'}") = StatusError body ->
             parse_one body = Some v -> e = ApiStatusError v).
Proof.
  assert (H : forall chunks, StatusError (dq "{'error':'model not found'}") <> Success chunks)
    by discriminate.
  split; [exact H|].
  apply (failed_request_same_error _ never_stop H).
Defined.

End StreamExtra.

(** ** Further properties of the prompt builder and of the loop of [main]. *)
Module PromptExtra.
Import Prompt Main.
Import PromptFacts.

Lemma step_cases (fs : fs_env) (o : op) (b : PromptBuilder) :
  step fs o b = (inr ContentExtractionError, b)
  \/ (exists f, fragment fs o = Some f
        /\ step fs o b = (inr (BudgetExceeded (effective_ceiling b) (len f)), b)
        /\ effective_ceiling b < u64_add b.(total_content_len) (len f) / 4)
  \/ (exists f, fragment fs o = Some f
        /\ step fs o b
           = (inl (len f), push_op o f
                 (set_total_content_len (u64_add b.(total_content_len) (len f)) b))
        /\ u64_add b.(total_content_len) (len f) / 4 <= effective_ceiling b).
Proof.
  destruct (fragment fs o) as [f|] eqn:F.
  - rewrite (step_admit fs o b f F). unfold admit_fragment; cbv zeta.
    destruct (Z.ltb_spec (effective_ceiling b) (u64_add (total_content_len b) (len f) / 4)).
    + right; left. exists f; auto.
    + right; right. exists f; repeat split; auto; lia.
  - left. apply step_no_fragment, F.
Qed.

Lemma effective_ceiling_push (o : op) (f : string) (v : Z) (b : PromptBuilder) :
  effective_ceiling (push_op o f (set_total_content_len v b)) = effective_ceiling b.
Proof. destruct o; reflexivity. Qed.

Lemma step_max_context (fs : fs_env) (o : op) (b : PromptBuilder) :
  (snd (step fs o b)).(max_context) = b.(max_context).
Proof.
  destruct (step_cases fs o b) as [H|[[f [_ [H _]]]|[f [_ [H _]]]]]; rewrite H;
    [reflexivity|reflexivity|destruct o; reflexivity].
Qed.

Lemma run_max_context (fs : fs_env) (ops : list op) (b : PromptBuilder) :
  (snd (run fs ops b)).(max_context) = b.(max_context).
Proof.
  revert b; induction ops as [|o ops IH]; intros b; [reflexivity|]. simpl.
  pose proof (step_max_context fs o b) as Hm.
  destruct (step fs o b) as [r b1] eqn:E.
  destruct (run fs ops b1) as [rs b2] eqn:E2. simpl in *.
  specialize (IH b1); rewrite E2 in IH; simpl in IH. congruence.
Qed.

(** X: whatever sequence of [add_file] and [add_document] calls is made
    on a builder that starts within its budget, the builder stays within
    it: [total_content_len] stays a [u64] and its quarter never exceeds
    the ceiling; the ceiling itself never changes. *)
Theorem run_within_budget (fs : fs_env) (ops : list op) (b : PromptBuilder)
    (Hrange : 0 <= b.(total_content_len) < u64_modulus)
    (Hbudget : b.(total_content_len) / 4 <= effective_ceiling b) :
  let b' := snd (run fs ops b) in
  0 <= b'.(total_content_len) < u64_modulus
  /\ b'.(total_content_len) / 4 <= effective_ceiling b'
  /\ effective_ceiling b' = effective_ceiling b.
Proof.
  revert b Hrange Hbudget; induction ops as [|o ops IH]; intros b Hrange Hbudget.
  - simpl; auto.
  - simpl.
    assert (Hs : 0 <= (snd (step fs o b)).(total_content_len) < u64_modulus
                 /\ (snd (step fs o b)).(total_content_len) / 4
                    <= effective_ceiling (snd (step fs o b))
                 /\ effective_ceiling (snd (step fs o b)) = effective_ceiling b).
    { destruct (step_cases fs o b) as [H|[[f [_ [H _]]]|[f [_ [H Hle]]]]];
        rewrite H; simpl; auto.
      rewrite effective_ceiling_push. destruct (push_op_total o f
        (set_total_content_len (u64_add (total_content_len b) (len f)) b)) as [Ht _].
      rewrite Ht. simpl. unfold u64_add, u64_modulus in *.
      repeat split; auto.
      - apply Z.mod_pos_bound; lia.
      - apply Z.mod_pos_bound; lia. }
    destruct (step fs o b) as [r b1] eqn:E. simpl in Hs.
    destruct Hs as [H1 [H2 H3]].
    specialize (IH b1 H1 H2).
    destruct (run fs ops b1) as [rs b2] eqn:E2. simpl in *.
    destruct IH as [I1 [I2 I3]]. repeat split; try lia.
Qed.

Lemma run_sum_mono (fs : fs_env) (ops : list op) (b : PromptBuilder) :
  sum_lens b <= sum_lens (snd (run fs ops b)).
Proof.
  revert b; induction ops as [|o ops IH]; intros b; simpl; [lia|].
  assert (Hs : sum_lens b <= sum_lens (snd (step fs o b))).
  { destruct (step_cases fs o b) as [H|[[f [_ [H _]]]|[f [_ [H _]]]]];
      rewrite H; simpl; try lia.
    rewrite sum_lens_push. pose proof (len_nonneg f).
    unfold sum_lens; simpl. fold (sum_lens b). lia. }
  destruct (step fs o b) as [r b1] eqn:E.
  specialize (IH b1). destruct (run fs ops b1) as [rs b2]. simpl in *. lia.
Qed.

Lemma run_total_exact (fs : fs_env) (ops : list op) (b : PromptBuilder) :
  b.(total_content_len) = sum_lens b ->
  sum_lens (snd (run fs ops b)) < u64_modulus ->
  (snd (run fs ops b)).(total_content_len) = sum_lens (snd (run fs ops b)).
Proof.
  intros Hinv Hsmall.
  pose proof (run_sum_mono fs ops b) as Hmono.
  pose proof (sum_lens_nonneg b) as Hb0.
  assert (Hi : total_inv b).
  { unfold total_inv. rewrite Z.mod_small; [exact Hinv|lia]. }
  pose proof (run_total_inv fs ops b (length ops) Hi) as H.
  rewrite firstn_all in H. unfold total_inv in H. rewrite H.
  apply Z.mod_small. pose proof (sum_lens_nonneg (snd (run fs ops b))). lia.
Qed.

(** X: a fragment once rejected for the budget stays rejected: after any
    further calls (whose lengths sum below [2^64]) the same call fails
    again with the same ceiling and length, and changes nothing. *)
Theorem rejected_stays_rejected (fs : fs_env) (o : op) (f : string)
    (ops : list op) (b : PromptBuilder)
    (Hf : fragment fs o = Some f)
    (Hinv : b.(total_content_len) = sum_lens b)
    (Hsmall : sum_lens (snd (run fs ops b)) + len f < u64_modulus)
    (Hrej : fst (step fs o b) = inr (BudgetExceeded (effective_ceiling b) (len f))) :
  step fs o (snd (run fs ops b))
  = (inr (BudgetExceeded (effective_ceiling b) (len f)), snd (run fs ops b)).
Proof.
  pose proof (len_nonneg f) as Hl.
  assert (Hex : (snd (run fs ops b)).(total_content_len) = sum_lens (snd (run fs ops b)))
    by (apply run_total_exact; [exact Hinv|lia]).
  pose proof (run_sum_mono fs ops b) as Hmono.
  pose proof (sum_lens_nonneg b) as Hb0.
  set (b' := snd (run fs ops b)) in *.
  assert (Hc : effective_ceiling b' = effective_ceiling b)
    by (unfold effective_ceiling, b'; rewrite run_max_context; reflexivity).
  assert (Hlt : effective_ceiling b < (b.(total_content_len) + len f) / 4).
  { rewrite (step_admit fs o b f Hf) in Hrej. unfold admit_fragment in Hrej; cbv zeta in Hrej.
    destruct (Z.ltb_spec (effective_ceiling b) (u64_add (total_content_len b) (len f) / 4))
      as [Hlt|]; [|discriminate].
    rewrite u64_add_small in Hlt; lia. }
  rewrite (step_admit fs o b' f Hf). unfold admit_fragment; cbv zeta.
  rewrite u64_add_small by lia. rewrite Hc.
  destruct (Z.ltb_spec (effective_ceiling b) ((total_content_len b' + len f) / 4))
    as [|Hge]; [reflexivity|].
  exfalso. assert ((total_content_len b + len f) / 4 <= (total_content_len b' + len f) / 4)
    by (apply Z.div_le_mono; lia). lia.
Qed.

Lemma step_counts (fs : fs_env) (o : op) (b : PromptBuilder) :
  let (r, b1) := step fs o b in
  (length b1.(files) + length b1.(documents)
   = length b.(files) + length b.(documents) + if is_err r then 0 else 1)%nat.
Proof.
  destruct (step_cases fs o b) as [H|[[f [_ [H _]]]|[f [_ [H _]]]]]; rewrite H;
    simpl; try lia.
  destruct o; simpl; rewrite length_app; simpl; lia.
Qed.

(** X: the counts [build] reports grow by one for every call that returned
    [Ok] and by nothing for a call that returned an error. *)
Theorem build_counts (t : template) (fs : fs_env) (ops : list op)
    (b : PromptBuilder) :
  let (rs, b') := run fs ops b in
  ((snd (build t b')).(file_count) + (snd (build t b')).(document_count)
   = length b.(files) + length b.(documents)
     + length (filter (fun r => negb (is_err r)) rs))%nat.
Proof.
  cbn [build snd file_count document_count].
  revert b; induction ops as [|o ops IH]; intros b; simpl; [lia|].
  pose proof (step_counts fs o b) as Hs.
  destruct (step fs o b) as [r b1] eqn:E.
  specialize (IH b1). destruct (run fs ops b1) as [rs b2] eqn:E2.
  destruct r; simpl in *; lia.
Qed.

Lemma len_app (a c : string) : len (a ++ c) = len a + len c.
Proof.
  unfold len.
  assert (H : String.length (a ++ c) = (String.length a + String.length c)%nat)
    by (induction a; simpl; [reflexivity|]; rewrite IHa; reflexivity).
  rewrite H. lia.
Qed.

Ltac len_facts := repeat match goal with
  | |- context [len ?s] =>
    lazymatch goal with
    | _ : 0 <= len s |- _ => fail
    | _ => pose proof (len_nonneg s)
    end
  end.

Lemma join_len (sep : string) (l : list string) :
  fold_right (fun c acc => len c + acc) 0 l <= len (join sep l).
Proof.
  induction l as [|x l IH]; cbn [fold_right join]; [unfold len; simpl; lia|].
  destruct l as [|y l]; cbn [fold_right join] in *.
  - lia.
  - rewrite !len_app. pose proof (len_nonneg sep). lia.
Qed.

Lemma fold_nl_len (F : list (string * string)) :
  fold_right (fun pc acc => len (snd pc) + acc) 0 F
  <= len (fold_right String.append EmptyString (map (fun pc => nl ++ snd pc)%string F)).
Proof.
  induction F as [|pc F IH]; cbn [fold_right map]; [unfold len; simpl; lia|].
  rewrite !len_app. pose proof (len_nonneg nl). lia.
Qed.

Lemma sum_lens_le_context (b : PromptBuilder) :
  sum_lens b <= len (join nl (build_context b)).
Proof.
  unfold sum_lens, build_context.
  pose proof (len_nonneg nl) as Hnl.
  assert (HF : fold_right (fun pc acc => len (snd pc) + acc) 0 b.(files)
               <= len (files_envelope b.(files))).
  { unfold files_envelope. rewrite fold_files. rewrite !len_app.
    pose proof (fold_nl_len b.(files)). len_facts. lia. }
  assert (HD : fold_right (fun c acc => len c + acc) 0 b.(documents)
               <= len (documents_envelope b.(documents))).
  { unfold documents_envelope. rewrite !len_app. pose proof (join_len nl b.(documents)).
    len_facts. lia. }
  destruct (files b) as [|pc F]; destruct (documents b) as [|c D];
    cbn [app join fold_right] in *.
  - unfold len; simpl; lia.
  - lia.
  - lia.
  - rewrite !len_app. lia.
Qed.

(** X: the prompt [build] returns is at least as long as all admitted
    content, so its estimate [prompt_context_len_estimated] is never
    below [context_len_estimated] (for a total that did not wrap). *)
Theorem prompt_estimate_covers_content (t : template) (b : PromptBuilder)
    (Htot : b.(total_content_len) <= sum_lens b) :
  (snd (build t b)).(context_len_estimated)
  <= (snd (build t b)).(prompt_context_len_estimated).
Proof.
  cbn [build snd context_len_estimated prompt_context_len_estimated].
  apply Z.div_le_mono; [lia|].
  pose proof (sum_lens_le_context b) as H.
  pose proof (sum_lens_nonneg b).
  destruct (build_context b) as [|x l] eqn:E.
  - assert (len (join nl []) = 0) by reflexivity.
    pose proof (len_nonneg (prompt b)). lia.
  - change (join nl [prompt b; fill t (join nl (x :: l))])
      with (prompt b ++ nl ++ fill t (join nl (x :: l)))%string.
    unfold fill. rewrite !len_app.
    pose proof (len_nonneg (prompt b)). pose proof (len_nonneg nl).
    pose proof (len_nonneg (tpl_before t)). pose proof (len_nonneg (tpl_after t)).
    lia.
Qed.


(** X: the file loop of [main] admits exactly what [PromptBuilder] would:
    its total and its documents are those of a builder on which
    [add_file] is called for each path, going on after a read failure and
    stopping at the first [BudgetExceeded]. *)
Theorem main_loop_matches_builder (fs : fs_env) (paths : list string)
    (b : PromptBuilder) :
  let b' := add_files_until_full fs paths b in
  collect_documents fs b.(max_context) paths b.(total_content_len) b.(files)
  = (b'.(total_content_len), b'.(files)).
Proof.
  revert b; induction paths as [|path rest IH]; intros b; [reflexivity|].
  simpl. unfold add_file, admit_fragment, effective_ceiling; cbv zeta.
  destruct (read_content fs path (path_extension path)) as [content|].
  - destruct (max_context b) as [m|] eqn:M;
      destruct (_ <? _); try reflexivity;
      rewrite <- IH; simpl; rewrite M; reflexivity.
  - apply IH.
Qed.

(** X: the [<files>] block of [build] holds the context string of [main]
    with one more newline in front: the fold from the empty string puts a
    newline before the first file too, where [reduce] does not. *)
Theorem files_block_vs_main_context (documents : list (string * string)) :
  files_envelope documents
  = ("<files>" ++ nl
     ++ match documents with [] => EmptyString | _ => nl ++ context documents end
     ++ nl ++ "</files>")%string.
Proof.
  assert (G : forall (l : list (string * string)) (acc : string),
             fold_left (fun acc pc => acc ++ nl ++ snd pc)%string l acc
             = fold_left (fun acc c => acc ++ nl ++ c)%string (map snd l) acc).
  { induction l; intros; simpl; auto. }
  assert (H : forall (l : list string) (acc : string),
             fold_left (fun acc c => acc ++ nl ++ c)%string l (nl ++ acc)%string
             = (nl ++ fold_left (fun acc c => acc ++ nl ++ c)%string l acc)%string).
  { induction l as [|x l IHl]; intros acc; cbn [fold_left]; [reflexivity|].
    rewrite str_app_assoc. apply IHl. }
  unfold files_envelope, context.
  destruct documents as [|[p c] rest]; [reflexivity|].
  assert (K : fold_left (fun acc pc => acc ++ nl ++ snd pc)%string ((p, c) :: rest)
                EmptyString
              = (nl ++ fold_left (fun acc c => acc ++ nl ++ c)%string (map snd rest) c)%string).
  { cbn [fold_left]. rewrite G. change (EmptyString ++ nl ++ snd (p, c))%string
      with (nl ++ c)%string. apply H. }
  rewrite K. reflexivity.
Qed.

Import Samples.

Lemma run_within_budget_witness :
  let b := set_max_context (Some 100) (new "Q") in
  let ops := [AddFile "main.rs"; AddDocument (replicate 500 "a"); AddDocument "doc"] in
  (0 <= b.(total_content_len) < u64_modulus)
  /\ b.(total_content_len) / 4 <= effective_ceiling b
  /\ (let b' := snd (run sample_fs ops b) in
      0 <= b'.(total_content_len) < u64_modulus
      /\ b'.(total_content_len) / 4 <= effective_ceiling b'
      /\ effective_ceiling b' = effective_ceiling b).
Proof.
  intros b ops.
  assert (H1 : 0 <= b.(total_content_len) < u64_modulus)
    by (split; [apply Z.leb_le | apply Z.ltb_lt]; reflexivity).
  assert (H2 : b.(total_content_len) / 4 <= effective_ceiling b)
    by (apply Z.leb_le; reflexivity).
  split; [exact H1|split; [exact H2|]].
  apply (run_within_budget sample_fs ops b H1 H2).
Defined.

Lemma rejected_stays_rejected_witness :
  let o := AddDocument (replicate 70000 "a") in
  let ops := [AddFile "main.rs"; AddDocument "doc"] in
  fragment sample_fs o = Some (replicate 70000 "a")
  /\ (new "Q").(total_content_len) = sum_lens (new "Q")
  /\ sum_lens (snd (run sample_fs ops (new "Q"))) + len (replicate 70000 "a") < u64_modulus
  /\ fst (step sample_fs o (new "Q"))
     = inr (BudgetExceeded (effective_ceiling (new "Q")) (len (replicate 70000 "a")))
  /\ step sample_fs o (snd (run sample_fs ops (new "Q")))
     = (inr (BudgetExceeded (effective_ceiling (new "Q")) (len (replicate 70000 "a"))),
        snd (run sample_fs ops (new "Q"))).
Proof.
  intros o ops.
  assert (Hf : fragment sample_fs o = Some (replicate 70000 "a")) by reflexivity.
  assert (Hinv : (new "Q").(total_content_len) = sum_lens (new "Q")) by reflexivity.
  assert (Hsmall : sum_lens (snd (run sample_fs ops (new "Q")))
                   + len (replicate 70000 "a") < u64_modulus)
    by (apply Z.ltb_lt; vm_compute; reflexivity).
  assert (Hrej : fst (step sample_fs o (new "Q"))
                 = inr (BudgetExceeded (effective_ceiling (new "Q"))
                          (len (replicate 70000 "a"))))
    by (vm_compute; reflexivity).
  split; [exact Hf|split; [exact Hinv|split; [exact Hsmall|split; [exact Hrej|]]]].
  apply (rejected_stays_rejected sample_fs o _ ops (new "Q") Hf Hinv Hsmall Hrej).
Defined.

Lemma prompt_estimate_covers_content_witness :
  let b := snd (run sample_fs [AddFile "main.rs"; AddDocument "doc"] (new "Q")) in
  b.(total_content_len) <= sum_lens b
  /\ (snd (build plain_template b)).(context_len_estimated)
     <= (snd (build plain_template b)).(prompt_context_len_estimated).
Proof.
  intros b.
  assert (H : b.(total_content_len) <= sum_lens b)
    by (apply Z.leb_le; vm_compute; reflexivity).
  split; [exact H|].
  apply (prompt_estimate_covers_content plain_template b H).
Defined.


End PromptExtra.
